(** * Geotracks analytics: dashboard components, configuration and
      pipeline contracts

    The development follows the repository's layout:
    - [AnomalyDetection] and [PopularRoutes] embed the two React
      components that hold data and logic (sample arrays, the severity
      switch, the filter callback, the rendered list);
    - [Config] embeds the configuration block of the README;
    - [Pipeline] holds the batch stages (aggregation, feature
      extraction, scoring) whose notebooks are not part of the sources.

    JavaScript strings are sequences of code units; they are embedded as
    [string] (code units up to U+00FF), which covers every literal of the
    components.  JavaScript numbers that only hold small integers are [Z];
    the [confidence] literals are decimal fractions and are kept exact
    in [Q]. *)

From Stdlib Require Import ZArith QArith Qround Reals Lra Lia Bool Sorted.
From Stdlib Require Import String Ascii.
From stdpp Require Import gmap strings list.

(** ** String primitives of the host language *)

Module JsString.

(** [String.prototype.toLowerCase] on one code unit below U+0100:
    A-Z and the Latin-1 capitals (all of U+00C0..U+00DE but the
    multiplication sign U+00D7) move up by 32, the rest is fixed. *)
Definition lowerUnit (c : ascii) : ascii :=
  let n := N_of_ascii c in
  if ((65 <=? n) && (n <=? 90))%N
     || ((192 <=? n) && (n <=? 222) && negb (n =? 215))%N
  then ascii_of_N (n + 32) else c.

Fixpoint toLowerCase (s : string) : string :=
  match s with
  | EmptyString => EmptyString
  | String c rest => String (lowerUnit c) (toLowerCase rest)
  end.

(** [s.startsWith(sub)] *)
Fixpoint startsWith (s sub : string) : bool :=
  match sub, s with
  | EmptyString, _ => true
  | String _ _, EmptyString => false
  | String c sub', String d s' => Ascii.eqb c d && startsWith s' sub'
  end.

(** [s.includes(sub)]: [sub] occurs at some position of [s]. *)
Fixpoint includes (s sub : string) : bool :=
  startsWith s sub
  || match s with
     | EmptyString => false
     | String _ s' => includes s' sub
     end.

(** [a < b || a === b] on strings: code-unit lexicographic order. *)
Definition leq (a b : string) : bool := String.leb a b.

End JsString.

(** ** The AnomalyDetection component *)

Module AnomalyDetection.
Import JsString.

Record Anomaly := {
  id : Z;
  type : string;
  severity : string;
  description : string;
  timestamp : string;
  location : string;
  tripId : string;
  duration : string;
  expectedDuration : string;
  distance : string;
  expectedDistance : string;
  confidence : Q;
  riskFactors : list string
}.

(** Sample anomaly data *)
Definition anomalies : list Anomaly :=
  [ {| id := 1;
       type := "Unusual Route";
       severity := "High";
       description := "Trip took significantly longer detour than optimal route";
       timestamp := "2024-01-15 14:23:45";
       location := "District 5, Zone A";
       tripId := "T-2024-001247";
       duration := "47 min";
       expectedDuration := "18 min";
       distance := "28.5 km";
       expectedDistance := "12.3 km";
       confidence := 0.94;
       riskFactors := ["Unusual Route"; "Extended Duration"; "Remote Area"] |};
    {| id := 2;
       type := "Speed Anomaly";
       severity := "Medium";
       description := "Vehicle speed patterns inconsistent with traffic conditions";
       timestamp := "2024-01-15 12:15:22";
       location := "Highway Section B2";
       tripId := "T-2024-001198";
       duration := "25 min";
       expectedDuration := "22 min";
       distance := "35.2 km";
       expectedDistance := "33.1 km";
       confidence := 0.78;
       riskFactors := ["Speed Variation"; "Traffic Inconsistency"] |};
    {| id := 3;
       type := "Time Anomaly";
       severity := "Low";
       description := "Trip occurred during unusually low-demand period";
       timestamp := "2024-01-15 03:45:12";
       location := "Business District";
       tripId := "T-2024-001089";
       duration := "12 min";
       expectedDuration := "15 min";
       distance := "8.7 km";
       expectedDistance := "9.2 km";
       confidence := 0.65;
       riskFactors := ["Off-Peak Hours"; "Business Area"] |};
    {| id := 4;
       type := "Geographic Outlier";
       severity := "High";
       description := "Trip endpoint in isolated area with low historical activity";
       timestamp := "2024-01-15 19:34:56";
       location := "Rural Zone R7";
       tripId := "T-2024-001312";
       duration := "38 min";
       expectedDuration := "25 min";
       distance := "42.1 km";
       expectedDistance := "28.4 km";
       confidence := 0.89;
       riskFactors := ["Isolated Destination"; "Low Activity Area"; "Late Hours"] |} ].

(** The [switch] of the component: strict equality against three
    literals, then the [default] branch. *)
Definition getSeverityColor (severity : string) : string :=
  if String.eqb severity "High" then "bg-destructive text-destructive-foreground"
  else if String.eqb severity "Medium" then "bg-warning text-warning-foreground"
  else if String.eqb severity "Low" then "bg-muted text-muted-foreground"
  else "bg-secondary text-secondary-foreground".

(** The callback handed to [anomalies.filter]. *)
Definition matchesFilters (selectedSeverity selectedType : string)
    (anomaly : Anomaly) : bool :=
  let matchesSeverity :=
    String.eqb selectedSeverity "all"
    || String.eqb (toLowerCase (severity anomaly)) selectedSeverity in
  let matchesType :=
    String.eqb selectedType "all"
    || includes (toLowerCase (type anomaly)) selectedType in
  matchesSeverity && matchesType.

(** [filteredAnomalies], as a function of the two pieces of state it
    closes over. *)
Definition filteredAnomalies (selectedSeverity selectedType : string)
    : list Anomaly :=
  List.filter (matchesFilters selectedSeverity selectedType) anomalies.

(** Order asked of a ranked anomaly list: score descending, equal
    scores by trip id ascending.  The component's score is
    [confidence]. *)
Definition ranksBefore (a b : Anomaly) : Prop :=
  (confidence b < confidence a)%Q
  \/ ((confidence a == confidence b)%Q /\ leq (tripId a) (tripId b) = true).

Definition ranksBeforeb (a b : Anomaly) : bool :=
  negb (Qle_bool (confidence a) (confidence b))
  || (Qeq_bool (confidence a) (confidence b) && leq (tripId a) (tripId b)).

Fixpoint rankedb (l : list Anomaly) : bool :=
  match l with
  | a :: (b :: _) as rest => ranksBeforeb a b && rankedb rest
  | _ => true
  end.

(** Severity labels of the sample data as levels. *)
Definition severityLevel (severity : string) : nat :=
  if String.eqb severity "High" then 2
  else if String.eqb severity "Medium" then 1
  else 0.

(** The values of the type selector that name one kind of anomaly. *)
Definition typeChoices : list string :=
  ["route"; "speed"; "time"; "geographic"].

End AnomalyDetection.

(** ** The PopularRoutes component *)

Module PopularRoutes.





End PopularRoutes.

(** ** Configuration block of the README *)

Module Config.

(** Spatial aggregation levels *)
Definition H3_RESOLUTION : nat := 9.
Definition MIN_TRIPS_PER_HEX : nat := 5.

(** DBSCAN clustering *)
Definition DBSCAN_EPS : Q := 0.01.
Definition DBSCAN_MIN_SAMPLES : nat := 10.

(** Isolation Forest *)
Definition ISOLATION_CONTAMINATION : Q := 0.1.
Definition ISOLATION_FEATURES : list string :=
  ["duration"; "distance"; "speed"].

End Config.


(** ** Batch pipeline: aggregation, feature extraction, scoring *)

Module Pipeline.

(** Modelled from the spec: the fault taxonomy of section 7; the
    notebooks raising these faults are not among the sources. *)
Inductive Fault :=
| InvalidCoordinate
| MalformedRecord
| InsufficientPoints
| NonMonotonicTimestamps
| DegenerateTrip.

(** Modelled from the spec: a stage either yields a value or fails with
    a per-record fault (the missing stages signal faults per record). *)
Inductive Outcome (A : Type) :=
| Ok (a : A)
| Fails (reason : Fault).
Arguments Ok {A} a.
Arguments Fails {A} reason.

(** Modelled from the spec: SpatialCell of section 3, an opaque
    hexagonal-cell identifier (the indexing notebook is missing). *)
Definition SpatialCell : Type := positive.

(** Modelled from the spec: TimeBucket of section 3, a coarsened
    timestamp; kept as window index and window width so that windows of
    different widths are different buckets. *)
Definition TimeBucket : Type := (Z * Z)%type.

(** Modelled from the spec: TripPoint of section 3.  Timestamps are
    seconds since the epoch; coordinates are the decimal degrees of the
    input rows, exact in [Q]. *)
Record TripPoint := {
  trip_id : string;
  timestamp : Z;
  lat : Q;
  lon : Q
}.

(** Modelled from the spec: AggregateBin of section 3. *)
Record AggregateBin := {
  cell : SpatialCell;
  bucket : TimeBucket;
  trip_count : nat;
  distinct_trip_ids_hint : nat
}.

(** Modelled from the spec: FeatureVector of section 3. *)
Record FeatureVector := {
  duration_s : R;
  distance_m : R;
  avg_speed_mps : R;
  start_cell : SpatialCell;
  end_cell : SpatialCell;
  straight_line_ratio : R
}.

(** Modelled from the spec: the severity enumeration of AnomalyRecord. *)
Inductive Severity := LOW | MEDIUM | HIGH.

(** Modelled from the spec: AnomalyRecord of section 3. *)
Record AnomalyRecord := {
  scored_trip_id : string;
  anomaly_score : R;
  severity : Severity;
  contributing_factors : list string
}.

(** Modelled from the spec: the hexagonal indexing library behind
    [cellOf] is an external collaborator; it enters as an interface. *)
Class SpatialIndexer := {
  geo_to_h3 : Q -> Q -> nat -> SpatialCell
}.

(** *** SpatialIndexer *)

(** Modelled from the spec: the coordinate check of [cellOf]
    (section 4.1), lat in [-90,90] and lon in [-180,180]. *)
Definition valid_coordinate (la lo : Q) : bool :=
  Qle_bool (-90) la && Qle_bool la 90
  && Qle_bool (-180) lo && Qle_bool lo 180.

(** Modelled from the spec: [cellOf] of section 4.1. *)
Definition cellOf `{SpatialIndexer} (la lo : Q) (resolution : nat)
    : Outcome SpatialCell :=
  if valid_coordinate la lo then Ok (geo_to_h3 la lo resolution)
  else Fails InvalidCoordinate.

(** *** PrivacyAggregator *)

(** The anonymization key: a cell and a time bucket. *)
Abbreviation Key := (SpatialCell * TimeBucket)%type.

(** Modelled from the spec: the per-key tally of section 4.2: how many
    points fell into the key, and which trips they belong to. *)
Record Tally := {
  points_seen : nat;
  trips_seen : gset string
}.

(** Modelled from the spec: time coarsening, a fixed-width window. *)
Definition bucketOf (width t : Z) : TimeBucket := ((t / width)%Z, width).

(** Modelled from the spec: the anonymization key (cell, bucket) of a
    point at a resolution and a window width. *)
Definition keyAt `{SpatialIndexer} (resolution : nat) (width : Z)
    (p : TripPoint) : Key :=
  (geo_to_h3 (lat p) (lon p) resolution, bucketOf width (timestamp p)).

(** Modelled from the spec: one more point under a key. *)
Definition bump (p : TripPoint) (o : option Tally) : option Tally :=
  Some match o with
       | None => {| points_seen := 1; trips_seen := {[ trip_id p ]} |}
       | Some t => {| points_seen := S (points_seen t);
                      trips_seen := {[ trip_id p ]} ∪ trips_seen t |}
       end.

(** Modelled from the spec: tally counts per key. *)
Definition tally (key : TripPoint -> Key) (pts : list TripPoint)
    : gmap Key Tally :=
  foldr (fun p m => partial_alter (bump p) (key p) m) ∅ pts.

(** The points of a batch that fall under one key, in batch order. *)
Definition group_of (key : TripPoint -> Key) (k : Key)
    (pts : list TripPoint) : list TripPoint :=
  List.filter (fun p => bool_decide (key p = k)) pts.

(** Modelled from the spec: a point whose key has count below k_min. *)
Definition sparse (k_min : nat) (m : gmap Key Tally)
    (key : TripPoint -> Key) (p : TripPoint) : bool :=
  match m !! key p with
  | Some t => points_seen t <? k_min
  | None => true
  end.

(** Modelled from the spec: the AggregateBin of one tallied key. *)
Definition binOf (kt : Key * Tally) : AggregateBin :=
  {| cell := fst (fst kt);
     bucket := snd (fst kt);
     trip_count := points_seen (snd kt);
     distinct_trip_ids_hint := size (trips_seen (snd kt)) |}.

(** Modelled from the spec: the bins a tally emits, those that reach
    k_min. *)
Definition emit (k_min : nat) (m : gmap Key Tally) : list AggregateBin :=
  List.filter (fun b => k_min <=? trip_count b)
              (List.map binOf (map_to_list m)).

(** Modelled from the spec: [aggregate] of section 4.2.  Points with
    invalid coordinates are excluded (a per-record fault).  Keys below
    k_min are re-tallied with the time bucket widened, what is still
    below k_min is re-tallied in the parent cell (one resolution
    coarser), and what is below k_min after that is suppressed.  The
    spec does not give the widened window's width; it enters as
    [coarser_width]. *)
Definition aggregate `{SpatialIndexer} (coarser_width : Z -> Z)
    (h3_resolution : nat)
    (points : list TripPoint) (bucket_width : Z) (k_min : nat)
    : list AggregateBin :=
  let located :=
    List.filter (fun p => valid_coordinate (lat p) (lon p)) points in
  let key0 := keyAt h3_resolution bucket_width in
  let m0 := tally key0 located in
  let rest1 := List.filter (sparse k_min m0 key0) located in
  let key1 := keyAt h3_resolution (coarser_width bucket_width) in
  let m1 := tally key1 rest1 in
  let rest2 := List.filter (sparse k_min m1 key1) rest1 in
  let key2 := keyAt (pred h3_resolution) (coarser_width bucket_width) in
  let m2 := tally key2 rest2 in
  emit k_min m0 ++ emit k_min m1 ++ emit k_min m2.

(** Modelled from the spec: [getHeatmap] of section 6, the bins of a
    run whose window starts inside the time range and whose cell passes
    the region filter. *)
Definition getHeatmap (bins : list AggregateBin)
    (time_range : Z * Z) (region_filter : SpatialCell -> bool)
    : list AggregateBin :=
  List.filter
    (fun b =>
       let start := (fst (bucket b) * snd (bucket b))%Z in
       (fst time_range <=? start)%Z && (start <? snd time_range)%Z
       && region_filter (cell b))
    bins.

(** *** TripFeatureExtractor *)

(** Modelled from the spec: the mean Earth radius, in metres, of the
    great-circle distance. *)
Definition EARTH_RADIUS_M : R := 6371000.

(** Modelled from the spec: decimal degrees as an angle in radians. *)
Definition radians (degrees : Q) : R := (Q2R degrees * PI / 180)%R.

(** Modelled from the spec: great-circle distance between two points,
    in metres (haversine form on the mean Earth radius). *)
Definition great_circle (p q : TripPoint) : R :=
  let phi1 := radians (lat p) in
  let phi2 := radians (lat q) in
  let dphi := (phi2 - phi1)%R in
  let dlam := (radians (lon q) - radians (lon p))%R in
  let h := (Rsqr (sin (dphi / 2))
            + cos phi1 * cos phi2 * Rsqr (sin (dlam / 2)))%R in
  (2 * EARTH_RADIUS_M * asin (sqrt h))%R.

(** Modelled from the spec: distance is the sum of great-circle
    distances between consecutive points. *)
Fixpoint path_length (trip : list TripPoint) : R :=
  match trip with
  | p :: (q :: _) as rest => (great_circle p q + path_length rest)%R
  | _ => 0%R
  end.

(** Modelled from the spec: no consecutive pair of timestamps
    decreases. *)
Fixpoint nondecreasing (ts : list Z) : bool :=
  match ts with
  | t1 :: (t2 :: _) as rest => (t1 <=? t2)%Z && nondecreasing rest
  | _ => true
  end.

(** Modelled from the spec: duration is the last timestamp minus the
    first. *)
Definition trip_duration (trip : list TripPoint) : Z :=
  match trip with
  | [] => 0%Z
  | first :: _ => (timestamp (List.last trip first) - timestamp first)%Z
  end.

(** Modelled from the spec: the ratio is clamped to [0,1]. *)
Definition clamp01 (x : R) : R := Rmax 0 (Rmin 1 x).

(** Modelled from the spec: [extract] of section 4.3.  Fewer than two
    points: InsufficientPoints; a decreasing consecutive pair:
    NonMonotonicTimestamps; duration (last minus first) at most 0:
    DegenerateTrip. *)
Definition extract `{SpatialIndexer} (h3_resolution : nat)
    (trip : list TripPoint) : Outcome FeatureVector :=
  match trip with
  | [] | [_] => Fails InsufficientPoints
  | first :: _ :: _ =>
      if negb (nondecreasing (List.map timestamp trip))
      then Fails NonMonotonicTimestamps
      else
        let final := List.last trip first in
        let duration := trip_duration trip in
        if (duration <=? 0)%Z then Fails DegenerateTrip
        else
          let distance := path_length trip in
          Ok {| duration_s := IZR duration;
                distance_m := distance;
                avg_speed_mps := (distance / IZR duration)%R;
                start_cell :=
                  geo_to_h3 (lat first) (lon first) h3_resolution;
                end_cell :=
                  geo_to_h3 (lat final) (lon final) h3_resolution;
                straight_line_ratio :=
                  clamp01 (great_circle first final / distance)%R |}
  end.





(** *** AnomalyScorer *)

(** Modelled from the spec: a fitted model of section 4.5: the
    forest's normalized score, the two severity cut points and the
    post-hoc factor derivation.  Fitting the forest itself is left to
    the outlier-detection library. *)
Record Model := {
  normalized_score : FeatureVector -> R;
  tau_high : R;
  tau_med : R;
  deviating_features : FeatureVector -> list string
}.

(** Modelled from the spec: severity as fixed cuts over the score. *)
Definition severity_of (m : Model) (s : R) : Severity :=
  if Rle_dec (tau_high m) s then HIGH
  else if Rle_dec (tau_med m) s then MEDIUM
  else LOW.

(** Modelled from the spec: [score] of section 4.5, for the feature
    vector of one trip. *)
Definition score (m : Model) (t : string * FeatureVector)
    : AnomalyRecord :=
  let s := normalized_score m (snd t) in
  {| scored_trip_id := fst t;
     anomaly_score := s;
     severity := severity_of m s;
     contributing_factors := deviating_features m (snd t) |}.

(** Modelled from the spec: scoring a whole population. *)
Definition score_population (m : Model)
    (population : list (string * FeatureVector)) : list AnomalyRecord :=
  List.map (score m) population.

(** The records of a scoring run that are about one trip. *)
Definition records_of (tid : string) (records : list AnomalyRecord)
    : list AnomalyRecord :=
  List.filter (fun r => String.eqb (scored_trip_id r) tid) records.

Definition severity_rank (s : Severity) : nat :=
  match s with LOW => 0 | MEDIUM => 1 | HIGH => 2 end.

(** *** Scenarios *)

(** Modelled from the spec: end-to-end scenario B of section 8, one
    trip with two points at the same place and the same instant. *)
Definition scenario_B : list TripPoint :=
  [ {| trip_id := "B"; timestamp := 0; lat := 0; lon := 0 |};
    {| trip_id := "B"; timestamp := 0; lat := 0; lon := 0 |} ].




(** A small point cloud: five points of four trips in one cell within
    the same hour, and one point far away. *)
Definition sample_cloud : list TripPoint :=
  [ {| trip_id := "a"; timestamp := 0; lat := 0; lon := 0 |};
    {| trip_id := "b"; timestamp := 60; lat := 0; lon := 0 |};
    {| trip_id := "c"; timestamp := 120; lat := 0; lon := 0 |};
    {| trip_id := "d"; timestamp := 1800; lat := 0.0001; lon := 0.0001 |};
    {| trip_id := "a"; timestamp := 30; lat := 0.0001; lon := 0 |};
    {| trip_id := "e"; timestamp := 5; lat := 10; lon := 10 |} ].

(** Five points of five trips in one cell, spread over two hours. *)
Definition two_hour_cloud : list TripPoint :=
  [ {| trip_id := "a"; timestamp := 0; lat := 0; lon := 0 |};
    {| trip_id := "b"; timestamp := 60; lat := 0; lon := 0 |};
    {| trip_id := "c"; timestamp := 120; lat := 0; lon := 0 |};
    {| trip_id := "d"; timestamp := 3700; lat := 0; lon := 0 |};
    {| trip_id := "e"; timestamp := 3800; lat := 0; lon := 0 |} ].

(** A fitted model for the examples: the score is the clamped average
    speed in units of 50 m/s, cut at 0.8 and 0.5. *)
Definition speed_model : Model :=
  {| normalized_score := fun fv => clamp01 (avg_speed_mps fv / 50)%R;
     tau_high := 0.8;
     tau_med := 0.5;
     deviating_features := fun _ => [] |}.

(** Two feature vectors for the examples: a ten-minute commute at
    10 m/s and a trip whose points jump about at 400 m/s. *)
Definition commuter : FeatureVector :=
  {| duration_s := 600; distance_m := 6000; avg_speed_mps := 10;
     start_cell := 1%positive; end_cell := 2%positive;
     straight_line_ratio := 9 / 10 |}.

Definition teleporter : FeatureVector :=
  {| duration_s := 600; distance_m := 240000; avg_speed_mps := 400;
     start_cell := 1%positive; end_cell := 3%positive;
     straight_line_ratio := 1 / 10 |}.

(** A stand-in indexer to run the stages on concrete input: a square
    grid of side 2^-resolution degrees. *)
Definition square_grid : SpatialIndexer :=
  {| geo_to_h3 := fun la lo resolution =>
       let scale := inject_Z (2 ^ Z.of_nat resolution) in
       encode (Qfloor (la * scale), Qfloor (lo * scale), resolution) |}.

End Pipeline.

(** ** The HeatmapVisualization component: the refresh control *)

Module HeatmapVisualization.

(** The state the refresh control reads and writes: the [isLoading] flag
    and the timeouts armed by [setTimeout] that have not fired yet, as
    the instants (milliseconds) at which they fall due, oldest first. *)
Record State := {
  isLoading : bool;
  pendingTimeouts : list Z
}.

(** [useState(false)], no timeout armed. *)
Definition initial : State :=
  {| isLoading := false; pendingTimeouts := [] |}.

(** [handleRefresh], run at instant [now]: [setIsLoading(true)], then a
    timeout of 1500 ms whose callback is [setIsLoading(false)]. *)
Definition handleRefresh (now : Z) (s : State) : State :=
  {| isLoading := true;
     pendingTimeouts := pendingTimeouts s ++ [(now + 1500)%Z] |}.

(** What happens to the component: a click on the Refresh button, or the
    event loop reaching the timeout queue, each at some instant. *)
Inductive Event :=
| ClickRefresh (now : Z)
| RunTimeouts (now : Z).

(** The button carries [disabled={isLoading}], so a click reaches
    [handleRefresh] only while the flag is false; the event loop runs the
    oldest timeout once it is due. *)
Definition step (s : State) (e : Event) : State :=
  match e with
  | ClickRefresh now => if isLoading s then s else handleRefresh now s
  | RunTimeouts now =>
      match pendingTimeouts s with
      | due :: rest =>
          if (due <=? now)%Z
          then {| isLoading := false; pendingTimeouts := rest |}
          else s
      | [] => s
      end
  end.

Definition run (events : list Event) : State := fold_left step events initial.

(** The flag and the timeout queue agree: idle with nothing armed, or
    loading with exactly one timeout armed. *)
Definition consistent (s : State) : Prop :=
  (isLoading s = false /\ pendingTimeouts s = [])
  \/ (isLoading s = true /\ exists due, pendingTimeouts s = [due]).

End HeatmapVisualization.

(** ** The Index page: the tab bar *)

Module Index.

(** The values of the four [TabsTrigger]s, which are also the values of
    the four [TabsContent] panels. *)
Definition triggers : list string :=
  ["overview"; "heatmap"; "routes"; "anomalies"].

Definition panels : list string :=
  ["overview"; "heatmap"; "routes"; "anomalies"].

(** The targets of the three quick-access cards, which sit inside the
    overview panel. *)
Definition quickAccess : list string := ["heatmap"; "routes"; "anomalies"].

(** A click on the n-th trigger or on the n-th quick-access card. *)
Inductive Event :=
| ClickTrigger (n : nat)
| ClickCard (n : nat).

(** [onValueChange={setActiveTab}] for a trigger; [setActiveTab(target)]
    for a card, which is on screen only while the overview panel is.  A
    click on something that is not there changes nothing. *)
Definition step (activeTab : string) (e : Event) : string :=
  match e with
  | ClickTrigger n => default activeTab (triggers !! n)
  | ClickCard n =>
      if String.eqb activeTab "overview"
      then default activeTab (quickAccess !! n)
      else activeTab
  end.

(** [useState("overview")], then the events in order. *)
Definition run (events : list Event) : string :=
  fold_left step events "overview"%string.

(** The panels on screen: those whose value is the active tab. *)
Definition visiblePanels (activeTab : string) : list string :=
  List.filter (String.eqb activeTab) panels.

End Index.

(** * Properties *)

(** ** Strings *)

Section JsStringFacts.
Import JsString.

Lemma startsWith_append (s sub : string) :
  startsWith s sub = true <-> exists post, s = String.append sub post.
Proof.
  revert s. induction sub as [|c sub IH]; intros s; simpl.
  - split; [intros _; now exists s | now destruct s].
  - destruct s as [|d s]; cbn [startsWith].
    + split; [discriminate | intros [post Hp]; discriminate].
    + rewrite andb_true_iff, IH. split.
      * intros [Hc [post ->]]. apply Ascii.eqb_eq in Hc as ->.
        now exists post.
      * intros [post Hp]. injection Hp as -> ->. split.
        -- apply Ascii.eqb_refl.
        -- now exists post.
Qed.

Lemma includes_occurrence (s sub : string) :
  includes s sub = true
  <-> exists pre post, s = String.append pre (String.append sub post).
Proof.
  induction s as [|c s IH].
  - cbn [includes]. rewrite orb_false_r, startsWith_append. split.
    + intros [post Hp]. now exists EmptyString, post.
    + intros [pre [post Hp]]. destruct pre; [|discriminate].
      now exists post.
  - cbn [includes]. rewrite orb_true_iff, startsWith_append, IH. split.
    + intros [[post Hp] | [pre [post Hp]]].
      * now exists EmptyString, post.
      * exists (String c pre), post. simpl. now rewrite Hp.
    + intros [pre [post Hp]]. destruct pre as [|d pre].
      * left. now exists post.
      * right. injection Hp as _ Hp. now exists pre, post.
Qed.

Lemma includes_empty (s : string) : includes s EmptyString = true.
Proof. destruct s; reflexivity. Qed.

End JsStringFacts.

(** ** AnomalyDetection *)

Section AnomalyDetectionFacts.
Import JsString AnomalyDetection.

Lemma ranksBeforeb_sound (a b : Anomaly) :
  ranksBeforeb a b = true <-> ranksBefore a b.
Proof.
  unfold ranksBeforeb, ranksBefore.
  rewrite orb_true_iff, andb_true_iff, negb_true_iff, Qeq_bool_iff.
  rewrite <- not_true_iff_false, Qle_bool_iff.
  split; (intros [H | H]; [left | right; exact H]).
  - now apply Qnot_le_lt.
  - now apply Qlt_not_le.
Qed.

Lemma rankedb_sound (l : list Anomaly) :
  rankedb l = true <-> Sorted ranksBefore l.
Proof.
  induction l as [|a [|b l] IH].
  - split; [constructor | reflexivity].
  - split; [repeat constructor | reflexivity].
  - cbn [rankedb]. rewrite andb_true_iff, ranksBeforeb_sound, IH. split.
    + intros [Hab Hs]. constructor; [exact Hs | now constructor].
    + intros Hs. apply Sorted_inv in Hs as [Hs Hhd].
      apply HdRel_inv in Hhd. now split.
Qed.

Lemma filter_sublist {A : Type} (f : A -> bool) (l : list A) :
  sublist (List.filter f l) l.
Proof.
  induction l as [|x l IH]; simpl.
  - constructor.
  - destruct (f x); now constructor.
Qed.

Lemma matchesFilters_spec (sev ty : string) (a : Anomaly) :
  matchesFilters sev ty a = true
  <-> (sev = "all"%string \/ toLowerCase (severity a) = sev)
      /\ (ty = "all"%string
          \/ exists pre post,
               toLowerCase (type a)
               = String.append pre (String.append ty post)).
Proof.
  unfold matchesFilters. cbv zeta.
  rewrite andb_true_iff, !orb_true_iff, !String.eqb_eq.
  now rewrite includes_occurrence.
Qed.

(** The sample array holds every record once: ids and trip ids are
    pairwise distinct. *)
Lemma anomalies_ids_distinct :
  NoDup (List.map id anomalies) /\ NoDup (List.map tripId anomalies).
Proof. split; apply (bool_decide_unpack _); vm_compute; exact I. Qed.

(** C9: for every severity and type selection, [filteredAnomalies] holds
    exactly the records of [anomalies] whose lowercased severity is the
    selection (or the selection is "all") and whose lowercased type has
    the selection as a substring (or the selection is "all"), in the
    order of the array; with "all" twice it is the whole array. *)
Theorem filteredAnomalies_exact (selectedSeverity selectedType : string) :
  (forall a,
      In a (filteredAnomalies selectedSeverity selectedType)
      <-> In a anomalies
          /\ (selectedSeverity = "all"%string
              \/ toLowerCase (severity a) = selectedSeverity)
          /\ (selectedType = "all"%string
              \/ exists pre post,
                   toLowerCase (type a)
                   = String.append pre (String.append selectedType post)))
  /\ sublist (filteredAnomalies selectedSeverity selectedType) anomalies
  /\ filteredAnomalies "all" "all" = anomalies.
Proof.
  split; [|split].
  - intros a. unfold filteredAnomalies.
    now rewrite filter_In, matchesFilters_spec.
  - apply filter_sublist.
  - reflexivity.
Qed.

(** C10: [getSeverityColor] is a total function, and every severity
    other than "High", "Medium" and "Low" gets the default secondary
    badge class. *)
Theorem getSeverityColor_default (severity : string) :
  severity <> "High"%string ->
  severity <> "Medium"%string ->
  severity <> "Low"%string ->
  getSeverityColor severity
  = "bg-secondary text-secondary-foreground"%string.
Proof.
  intros HH HM HL. unfold getSeverityColor.
  apply String.eqb_neq in HH, HM, HL. now rewrite HH, HM, HL.
Qed.

Lemma getSeverityColor_default_witness :
  getSeverityColor "Critical"
  = "bg-secondary text-secondary-foreground"%string.
Proof.
  apply getSeverityColor_default; discriminate.
Defined.

(** The three recognised severities get their own badge classes. *)
Lemma getSeverityColor_known :
  getSeverityColor "High" = "bg-destructive text-destructive-foreground"%string
  /\ getSeverityColor "Medium" = "bg-warning text-warning-foreground"%string
  /\ getSeverityColor "Low" = "bg-muted text-muted-foreground"%string.
Proof. repeat split. Qed.

End AnomalyDetectionFacts.

Section AnomalyRanking.
Import JsString AnomalyDetection.

Lemma matches_severity (sev ty : string) (a : Anomaly) :
  sev <> "all"%string ->
  matchesFilters sev ty a = true -> toLowerCase (severity a) = sev.
Proof.
  intros Hsev [[Hall | Heq] _]%matchesFilters_spec; [contradiction | exact Heq].
Qed.

Lemma matches_type (sev ty : string) (a : Anomaly) :
  ty <> "all"%string ->
  matchesFilters sev ty a = true ->
  includes (toLowerCase (type a)) ty = true.
Proof.
  unfold matchesFilters. cbv zeta. intros Hty%String.eqb_neq.
  rewrite Hty, orb_false_l, andb_true_iff. now intros [_ H].
Qed.

Ltac ranked_or_absurd contradict :=
  first
    [ apply rankedb_sound; vm_compute; reflexivity
    | exfalso;
      repeat match goal with
             | E : matchesFilters _ _ _ = true |- _ =>
                 contradict E; vm_compute in E
             end;
      congruence ].

(** C2, as the claim has it, fails for the unfiltered view: the array
    order puts confidence 0.65 before 0.89. *)
Lemma filteredAnomalies_all_not_ranked :
  ~ Sorted ranksBefore (filteredAnomalies "all" "all").
Proof.
  intros H%rankedb_sound. vm_compute in H. discriminate.
Qed.

(** C2, amended: [filteredAnomalies] keeps the order of the [anomalies]
    array and applies no sort; the result is in score order (confidence
    descending, equal scores by trip id ascending) for every severity
    selection other than "all" and for every type selection that names
    one anomaly type. *)
Theorem filteredAnomalies_ranked (selectedSeverity selectedType : string) :
  selectedSeverity <> "all"%string \/ In selectedType typeChoices ->
  Sorted ranksBefore (filteredAnomalies selectedSeverity selectedType)
  /\ sublist (filteredAnomalies selectedSeverity selectedType) anomalies.
Proof.
  intros Hsel. split; [|apply filter_sublist].
  unfold filteredAnomalies, anomalies. cbn [List.filter].
  destruct Hsel as [Hsev | Hty].
  - repeat match goal with
           | |- context [matchesFilters ?s ?t ?a] =>
               destruct (matchesFilters s t a) eqn:?
           end;
      ranked_or_absurd ltac:(fun E => apply (matches_severity _ _ _ Hsev) in E).
  - repeat match goal with
           | |- context [matchesFilters ?s ?t ?a] =>
               destruct (matchesFilters s t a) eqn:?
           end;
      repeat (destruct Hty as [<- | Hty]; [|try contradiction]);
      ranked_or_absurd ltac:(fun E => apply matches_type in E; [|discriminate]).
Qed.

Lemma filteredAnomalies_ranked_witness :
  Sorted ranksBefore (filteredAnomalies "high" "all")
  /\ sublist (filteredAnomalies "high" "all") anomalies.
Proof.
  apply filteredAnomalies_ranked. left. discriminate.
Defined.

(** The sample records agree with a cut of the score into severities:
    a record with an equal or greater confidence never has a lower
    severity. *)
Lemma anomalies_severity_monotone (a b : Anomaly) :
  In a anomalies -> In b anomalies ->
  (confidence a <= confidence b)%Q ->
  severityLevel (severity a) <= severityLevel (severity b).
Proof.
  intros Ha Hb Hle.
  assert (Hall :
    forallb (fun x =>
      forallb (fun y =>
        implb (Qle_bool (confidence x) (confidence y))
              (severityLevel (severity x) <=? severityLevel (severity y)))
        anomalies) anomalies = true) by (vm_compute; reflexivity).
  rewrite forallb_forall in Hall. specialize (Hall a Ha).
  rewrite forallb_forall in Hall. specialize (Hall b Hb).
  apply Qle_bool_iff in Hle. rewrite Hle in Hall. simpl in Hall.
  now apply Nat.leb_le.
Qed.

End AnomalyRanking.

(** ** PopularRoutes *)

Section PopularRoutesFacts.
Import PopularRoutes.




End PopularRoutesFacts.

(** ** PrivacyAggregator *)

Section AggregatorFacts.
Import Pipeline.
Context {indexer : SpatialIndexer}.

Lemma bump_commute (p q : TripPoint) (o : option Tally) :
  bump p (bump q o) = bump q (bump p o).
Proof.
  destruct o as [t|]; unfold bump; cbn; apply f_equal, f_equal;
    apply set_eq; intros x; rewrite !elem_of_union; tauto.
Qed.

Lemma bump_points_seen (p : TripPoint) (o : option Tally) :
  from_option points_seen 0 (bump p o) = S (from_option points_seen 0 o).
Proof. now destruct o. Qed.

(** A tally counts, under each key, the points of the batch that carry
    the key. *)
Lemma tally_count (key : TripPoint -> Key) (pts : list TripPoint) (k : Key) :
  from_option points_seen 0 (tally key pts !! k)
  = length (group_of key k pts).
Proof.
  induction pts as [|p pts IH]; [reflexivity|].
  unfold tally, group_of in *. cbn [foldr List.filter].
  rewrite lookup_partial_alter. destruct (decide (key p = k)) as [<- | Hne].
  - rewrite bool_decide_eq_true_2 by reflexivity.
    rewrite bump_points_seen, IH. reflexivity.
  - rewrite bool_decide_eq_false_2 by exact Hne. exact IH.
Qed.

(** The tally does not depend on the order of the batch. *)
Lemma tally_permutation (key : TripPoint -> Key) (pts pts' : list TripPoint) :
  pts ≡ₚ pts' -> tally key pts = tally key pts'.
Proof.
  induction 1 as [|p l l' _ IH|p q l|l l' l'' _ IH1 _ IH2]; cbn.
  - reflexivity.
  - unfold tally in *. cbn [foldr]. now rewrite IH.
  - unfold tally. cbn [foldr]. apply map_eq. intros k.
    rewrite !lookup_partial_alter.
    repeat case_decide; subst; try congruence.
    match goal with E : key _ = key _ |- _ => rewrite E end.
    apply bump_commute.
  - congruence.
Qed.

Lemma filter_permutation {A : Type} (f : A -> bool) (l l' : list A) :
  l ≡ₚ l' -> List.filter f l ≡ₚ List.filter f l'.
Proof.
  induction 1 as [|x l l' _ IH|x y l|l l' l'' _ IH1 _ IH2]; cbn.
  - reflexivity.
  - destruct (f x); [now constructor | exact IH].
  - destruct (f x), (f y); try reflexivity. apply perm_swap.
  - now transitivity (List.filter f l').
Qed.

Lemma emit_floor (k_min : nat) (m : gmap Key Tally) (b : AggregateBin) :
  In b (emit k_min m) ->
  k_min <= trip_count b
  /\ exists t, m !! (cell b, bucket b) = Some t
               /\ trip_count b = points_seen t
               /\ distinct_trip_ids_hint b = size (trips_seen t).
Proof.
  unfold emit. rewrite filter_In, in_map_iff.
  intros [[[k t] [<- Hin]] Hle]. split.
  - now apply Nat.leb_le.
  - exists t. apply list_elem_of_In, elem_of_map_to_list in Hin.
    cbn. now destruct k.
Qed.

(** An emitted bin stands for the group of points of the tallied batch
    under its key. *)
Lemma emit_group (k_min : nat) (key : TripPoint -> Key)
    (pts : list TripPoint) (b : AggregateBin) :
  In b (emit k_min (tally key pts)) ->
  trip_count b = length (group_of key (cell b, bucket b) pts).
Proof.
  intros [_ [t [Ht [-> _]]]]%emit_floor.
  rewrite <- tally_count, Ht. reflexivity.
Qed.

Lemma getHeatmap_incl (bins : list AggregateBin) (time_range : Z * Z)
    (region_filter : SpatialCell -> bool) (b : AggregateBin) :
  In b (getHeatmap bins time_range region_filter) -> In b bins.
Proof. unfold getHeatmap. rewrite filter_In. tauto. Qed.

Variable coarser_width : Z -> Z.
Variable h3_resolution : nat.

(** The bins of one stage: each reaches k_min and counts a group of
    points of the stage that all carry the bin's key. *)
Lemma stage_bins (key : TripPoint -> Key) (points stage : list TripPoint)
    (k_min : nat) (b : AggregateBin) :
  sublist stage points ->
  In b (emit k_min (tally key stage)) ->
  k_min <= trip_count b
  /\ exists group,
       sublist group points
       /\ length group = trip_count b
       /\ Forall (fun p => In p stage /\ key p = (cell b, bucket b)) group.
Proof.
  intros Hsub Hb. split; [now apply emit_floor in Hb|].
  apply emit_group in Hb. exists (group_of key (cell b, bucket b) stage).
  split; [|split].
  - etransitivity; [apply filter_sublist | exact Hsub].
  - now rewrite Hb.
  - apply List.Forall_forall. intros p. unfold group_of.
    rewrite filter_In. intros [Hp Hkey]. split; [exact Hp|].
    now apply bool_decide_eq_true_1 in Hkey.
Qed.

(** C1: every bin emitted by [aggregate], and so every bin returned by
    [getHeatmap], has trip_count >= k_min; the count of a bin is the size
    of a group of input points with valid coordinates that all fall into
    the bin's cell and bucket, so a group below k_min is never emitted. *)
Theorem aggregate_k_anonymous (points : list TripPoint)
    (bucket_width : Z) (k_min : nat) :
  let bins := aggregate coarser_width h3_resolution points bucket_width k_min in
  (forall b, In b bins ->
     k_min <= trip_count b
     /\ exists resolution width group,
          sublist group points
          /\ length group = trip_count b
          /\ Forall (fun p =>
                       valid_coordinate (lat p) (lon p) = true
                       /\ keyAt resolution width p = (cell b, bucket b))
                    group)
  /\ (forall time_range region_filter b,
        In b (getHeatmap bins time_range region_filter) ->
        k_min <= trip_count b).
Proof.
  cbv zeta.
  assert (Hbins : forall b,
    In b (aggregate coarser_width h3_resolution points bucket_width k_min) ->
    k_min <= trip_count b
    /\ exists resolution width group,
         sublist group points
         /\ length group = trip_count b
         /\ Forall (fun p =>
                      valid_coordinate (lat p) (lon p) = true
                      /\ keyAt resolution width p = (cell b, bucket b))
                   group).
  { intros b. unfold aggregate. cbv zeta. rewrite !in_app_iff.
    intros [Hb | [Hb | Hb]];
      (apply (stage_bins _ points) in Hb;
        [|repeat (etransitivity; [apply filter_sublist|]); reflexivity]);
      destruct Hb as [Hk [group [Hsub [Hlen Hall]]]];
      (split; [exact Hk|]);
      eexists _, _, group; (split; [exact Hsub|]); (split; [exact Hlen|]);
      (eapply List.Forall_impl; [|exact Hall]);
      cbv beta; intros p [Hp Hkey]; (split; [|exact Hkey]);
      rewrite !filter_In in Hp; tauto. }
  split; [exact Hbins|].
  intros time_range region_filter b Hb%getHeatmap_incl.
  now apply Hbins.
Qed.

(** With the floor of the configuration, every emitted bin counts at
    least five points. *)
Lemma aggregate_default_floor (points : list TripPoint) (bucket_width : Z)
    (b : AggregateBin) :
  In b (aggregate coarser_width h3_resolution points bucket_width
          Config.MIN_TRIPS_PER_HEX) ->
  5 <= trip_count b.
Proof.
  unfold aggregate. cbv zeta. rewrite !in_app_iff.
  intros [Hb | [Hb | Hb]]; now apply emit_floor in Hb.
Qed.

(** C8: [aggregate] is a function of the batch and the configuration
    alone, and the multiset of bins it yields is the same for every
    ordering of the same batch; in particular a second run on the same
    input yields an identical multiset of bins. *)
Theorem aggregate_idempotent (points points' : list TripPoint)
    (bucket_width : Z) (k_min : nat) :
  points ≡ₚ points' ->
  aggregate coarser_width h3_resolution points bucket_width k_min
  ≡ₚ aggregate coarser_width h3_resolution points' bucket_width k_min.
Proof.
  intros Hperm. unfold aggregate. cbv zeta.
  set (valid := fun p => valid_coordinate (lat p) (lon p)).
  assert (H0 : List.filter valid points ≡ₚ List.filter valid points')
    by now apply filter_permutation.
  set (key0 := keyAt h3_resolution bucket_width).
  rewrite (tally_permutation key0 _ _ H0).
  set (m0 := tally key0 (List.filter valid points')).
  assert (H1 : List.filter (sparse k_min m0 key0) (List.filter valid points)
               ≡ₚ List.filter (sparse k_min m0 key0) (List.filter valid points'))
    by now apply filter_permutation.
  set (key1 := keyAt h3_resolution (coarser_width bucket_width)).
  rewrite (tally_permutation key1 _ _ H1).
  set (m1 := tally key1 _).
  assert (H2 : List.filter (sparse k_min m1 key1)
                 (List.filter (sparse k_min m0 key0) (List.filter valid points))
               ≡ₚ List.filter (sparse k_min m1 key1)
                 (List.filter (sparse k_min m0 key0) (List.filter valid points')))
    by now apply filter_permutation.
  set (key2 := keyAt (pred h3_resolution) (coarser_width bucket_width)).
  rewrite (tally_permutation key2 _ _ H2).
  reflexivity.
Qed.

End AggregatorFacts.

Section AggregatorRuns.
Import Pipeline.

(** With the anonymity floor of the configuration, the sample cloud
    yields the one dense cell and suppresses the lone far point. *)
Example aggregate_sample_cloud :
  aggregate (H := square_grid) (Z.mul 2) Config.H3_RESOLUTION
            sample_cloud 3600 Config.MIN_TRIPS_PER_HEX
  = [ {| cell := geo_to_h3 (SpatialIndexer := square_grid) 0 0 9;
         bucket := (0, 3600)%Z;
         trip_count := 5;
         distinct_trip_ids_hint := 4 |} ].
Proof. vm_compute. reflexivity. Qed.

(** Below the floor in each hour, the two-hour cloud is emitted once
    the time bucket is widened. *)
Example aggregate_widens_time :
  aggregate (H := square_grid) (Z.mul 2) Config.H3_RESOLUTION
            two_hour_cloud 3600 Config.MIN_TRIPS_PER_HEX
  = [ {| cell := geo_to_h3 (SpatialIndexer := square_grid) 0 0 9;
         bucket := (0, 7200)%Z;
         trip_count := 5;
         distinct_trip_ids_hint := 5 |} ].
Proof. vm_compute. reflexivity. Qed.

Lemma aggregate_idempotent_witness :
  aggregate (H := square_grid) (Z.mul 2) Config.H3_RESOLUTION
            sample_cloud 3600 Config.MIN_TRIPS_PER_HEX
  ≡ₚ aggregate (H := square_grid) (Z.mul 2) Config.H3_RESOLUTION
            (List.rev sample_cloud) 3600 Config.MIN_TRIPS_PER_HEX.
Proof.
  apply aggregate_idempotent. apply Permutation_rev.
Defined.

End AggregatorRuns.

(** ** TripFeatureExtractor *)

Section ExtractorFacts.
Import Pipeline.
Context {indexer : SpatialIndexer}.
Variable h3_resolution : nat.




Lemma asin_nonneg (x : R) : (0 <= x)%R -> (0 <= asin x)%R.
Proof.
  intros Hx. destruct (Rle_lt_dec 1 x) as [H1 | H1].
  - unfold asin. destruct (Rle_dec x (-1)); [lra|].
    destruct (Rle_dec 1 x); [|lra]. pose proof PI_RGT_0. lra.
  - rewrite asin_atan by lra.
    assert (Hs : (0 < sqrt (1 - x²))%R).
    { apply sqrt_lt_R0. unfold Rsqr. nra. }
    assert (Harg : (0 <= x / sqrt (1 - x²))%R).
    { apply Rmult_le_pos; [exact Hx | left; now apply Rinv_0_lt_compat]. }
    destruct Harg as [Hlt | <-].
    + left. rewrite <- atan_0. now apply atan_increasing.
    + rewrite atan_0. lra.
Qed.

Lemma great_circle_nonneg (p q : TripPoint) : (0 <= great_circle p q)%R.
Proof.
  unfold great_circle, EARTH_RADIUS_M. cbv zeta.
  apply Rmult_le_pos; [lra|]. apply asin_nonneg, sqrt_pos.
Qed.

Lemma path_length_nonneg (trip : list TripPoint) :
  (0 <= path_length trip)%R.
Proof.
  induction trip as [|p [|q rest] IH]; cbn [path_length]; try lra.
  pose proof (great_circle_nonneg p q). cbn [path_length] in IH. lra.
Qed.










End ExtractorFacts.

Section ExtractorRuns.
Import Pipeline.
#[local] Existing Instance square_grid.

(** Scenario B of the spec: the trip fails with DegenerateTrip. *)
Example scenario_B_degenerate :
  extract Config.H3_RESOLUTION scenario_B = Fails DegenerateTrip.
Proof. reflexivity. Qed.






End ExtractorRuns.

(** ** AnomalyScorer *)

Section ScorerFacts.
Import Pipeline.

Lemma severity_high_only_above (m : Model) (s : R) :
  severity_of m s = HIGH -> (tau_high m <= s)%R.
Proof.
  unfold severity_of.
  destruct (Rle_dec (tau_high m) s); [trivial|].
  destruct (Rle_dec (tau_med m) s); discriminate.
Qed.

Lemma severity_monotone (m : Model) (s1 s2 : R) :
  (s1 <= s2)%R ->
  severity_rank (severity_of m s1) <= severity_rank (severity_of m s2).
Proof.
  intros Hle. unfold severity_of.
  destruct (Rle_dec (tau_high m) s1), (Rle_dec (tau_high m) s2),
           (Rle_dec (tau_med m) s1), (Rle_dec (tau_med m) s2);
    cbn; try lia; lra.
Qed.

Lemma records_of_absent (m : Model) (tid : string)
    (population : list (string * FeatureVector)) :
  ~ In tid (List.map fst population) ->
  records_of tid (score_population m population) = [].
Proof.
  induction population as [|t population IH]; [reflexivity|].
  cbn [List.map In score_population records_of List.filter score scored_trip_id].
  intros Hnot.
  destruct (String.eqb_spec (fst t) tid) as [Heq | _]; [tauto|].
  apply IH. tauto.
Qed.

Lemma records_of_unique (m : Model) (tid : string)
    (population : list (string * FeatureVector)) :
  NoDup (List.map fst population) ->
  In tid (List.map fst population) ->
  length (records_of tid (score_population m population)) = 1.
Proof.
  induction population as [|t population IH]; [contradiction|].
  cbn [List.map]. intros [Hnotin Hnd]%NoDup_cons.
  rewrite list_elem_of_In in Hnotin.
  cbn [In score_population records_of List.map List.filter score scored_trip_id].
  destruct (String.eqb_spec (fst t) tid) as [Heq | Hne].
  - intros _. subst tid. cbn [length]. f_equal.
    change (length (records_of (fst t) (score_population m population)) = 0).
    now rewrite records_of_absent.
  - intros [Heq | Hin]; [contradiction|]. now apply IH.
Qed.

(** C7: for every population (one feature vector per trip) and every
    fitted model, each trip of the population is the subject of exactly
    one AnomalyRecord; a record has severity HIGH only if its score
    reaches tau_high; and a record with an equal or greater score
    never has a strictly lower severity. *)
Theorem scorer_invariants (m : Model)
    (population : list (string * FeatureVector)) :
  NoDup (List.map fst population) ->
  let records := score_population m population in
  length records = length population
  /\ (forall t, In t population ->
        length (records_of (fst t) records) = 1)
  /\ (forall r, In r records ->
        severity r = HIGH -> (tau_high m <= anomaly_score r)%R)
  /\ (forall r1 r2, In r1 records -> In r2 records ->
        (anomaly_score r1 <= anomaly_score r2)%R ->
        severity_rank (severity r1) <= severity_rank (severity r2)).
Proof.
  intros Hnd. cbv zeta. repeat split.
  - unfold score_population. apply length_map.
  - intros t Ht. apply records_of_unique; [exact Hnd|].
    apply in_map_iff. now exists t.
  - unfold score_population. intros r [t [<- _]]%in_map_iff.
    cbn. apply severity_high_only_above.
  - unfold score_population.
    intros r1 r2 [t1 [<- _]]%in_map_iff [t2 [<- _]]%in_map_iff.
    cbn. apply severity_monotone.
Qed.

Lemma scorer_invariants_witness :
  let records :=
    score_population speed_model
      [("c"%string, commuter); ("t"%string, teleporter)] in
  length records = 2
  /\ (forall t, In t [("c"%string, commuter); ("t"%string, teleporter)] ->
        length (records_of (fst t) records) = 1)
  /\ (forall r, In r records ->
        severity r = HIGH -> (tau_high speed_model <= anomaly_score r)%R)
  /\ (forall r1 r2, In r1 records -> In r2 records ->
        (anomaly_score r1 <= anomaly_score r2)%R ->
        severity_rank (severity r1) <= severity_rank (severity r2)).
Proof.
  apply (scorer_invariants speed_model
           [("c"%string, commuter); ("t"%string, teleporter)]).
  apply (bool_decide_unpack _). vm_compute. exact I.
Defined.

(** The jumping trip is scored HIGH and the commute LOW. *)
Example teleporter_scored_high :
  List.map severity
    (score_population speed_model
       [("c"%string, commuter); ("t"%string, teleporter)])
  = [LOW; HIGH].
Proof.
  cbn [score_population List.map score severity snd speed_model
       normalized_score commuter teleporter avg_speed_mps].
  assert (Hc : clamp01 (10 / 50) = (1 / 5)%R).
  { unfold clamp01. rewrite Rmin_right by lra. rewrite Rmax_right by lra. lra. }
  assert (Ht : clamp01 (400 / 50) = 1%R).
  { unfold clamp01. rewrite Rmin_left by lra. rewrite Rmax_right by lra. lra. }
  rewrite Hc, Ht. unfold severity_of, speed_model. cbn [tau_high tau_med].
  repeat match goal with
         | |- context [Rle_dec ?a ?b] => destruct (Rle_dec a b); try lra
         end.
  reflexivity.
Qed.

End ScorerFacts.

(** ** More on the filter callback *)

Section LowerCaseFacts.
Import JsString.

Lemma lowerUnit_idempotent (c : ascii) : lowerUnit (lowerUnit c) = lowerUnit c.
Proof.
  destruct c as [[] [] [] [] [] [] [] []]; vm_compute; reflexivity.
Qed.

Lemma toLowerCase_idempotent (s : string) :
  toLowerCase (toLowerCase s) = toLowerCase s.
Proof.
  induction s as [|c s IH]; [reflexivity|].
  cbn [toLowerCase]. now rewrite lowerUnit_idempotent, IH.
Qed.

Lemma append_cons (c : ascii) (a b : string) :
  String.append (String c a) b = String c (String.append a b).
Proof. reflexivity. Qed.

Lemma append_assoc (a b c : string) :
  String.append (String.append a b) c = String.append a (String.append b c).
Proof.
  induction a as [|x a IH]; [reflexivity|].
  rewrite !append_cons. now rewrite IH.
Qed.

(** A string that is its own lowercase has only such pieces. *)
Lemma lowercase_pieces (a b : string) :
  toLowerCase (String.append a b) = String.append a b ->
  toLowerCase a = a /\ toLowerCase b = b.
Proof.
  induction a as [|c a IH].
  - change (String.append EmptyString b) with b. now intros ->.
  - rewrite append_cons. cbn [toLowerCase]. intros H.
    injection H as Hc Hrest.
    destruct (IH Hrest) as [Ha Hb]. now rewrite Hc, Ha.
Qed.

(** Whatever occurs in a lowercased string is its own lowercase. *)
Lemma includes_lowercase (s sub : string) :
  includes (toLowerCase s) sub = true -> toLowerCase sub = sub.
Proof.
  intros [pre [post Hocc]]%includes_occurrence.
  pose proof (toLowerCase_idempotent s) as Hidem.
  rewrite Hocc in Hidem.
  apply lowercase_pieces in Hidem as [_ Hrest].
  now apply lowercase_pieces in Hrest as [Hsub _].
Qed.

Lemma includes_trans (s mid sub : string) :
  includes s mid = true -> includes mid sub = true -> includes s sub = true.
Proof.
  intros [pre [post ->]]%includes_occurrence
         [pre' [post' ->]]%includes_occurrence.
  apply includes_occurrence.
  exists (String.append pre pre'), (String.append post' post).
  now rewrite !append_assoc.
Qed.

End LowerCaseFacts.

Section FilterCallbackFacts.
Import JsString AnomalyDetection.

Lemma matchesFilters_split (sev ty : string) (a : Anomaly) :
  matchesFilters sev ty a
  = matchesFilters sev "all" a && matchesFilters "all" ty a.
Proof.
  unfold matchesFilters. cbv zeta.
  change (String.eqb "all" "all") with true.
  now rewrite orb_true_l, andb_true_r, andb_true_l.
Qed.

Lemma filter_andb {A : Type} (f g : A -> bool) (l : list A) :
  List.filter (fun a => f a && g a) l = List.filter g (List.filter f l).
Proof.
  induction l as [|x l IH]; [reflexivity|].
  cbn. destruct (f x); cbn; [destruct (g x)|]; now rewrite IH.
Qed.

(** The severity test compares the lowercased field with the selection
    as it is: for every array of anomalies, a severity selection other
    than "all" that is not all lowercase selects nothing. *)
Theorem severity_selection_case_sensitive (sev ty : string)
    (records : list Anomaly) :
  sev <> "all"%string ->
  toLowerCase sev <> sev ->
  List.filter (matchesFilters sev ty) records = []
  /\ filteredAnomalies sev ty = [].
Proof.
  intros Hall Hcase.
  assert (Hnone : forall a, matchesFilters sev ty a = false).
  { intros a. apply not_true_iff_false. intros Hm.
    apply (matches_severity _ _ _ Hall) in Hm.
    apply Hcase. rewrite <- Hm. apply toLowerCase_idempotent. }
  assert (Hfilter : forall l, List.filter (matchesFilters sev ty) l = []).
  { induction l as [|a l IH]; [reflexivity|]. cbn. now rewrite Hnone. }
  split; apply Hfilter.
Qed.

Lemma severity_selection_case_sensitive_witness :
  List.filter (matchesFilters "High" "all") anomalies = []
  /\ filteredAnomalies "High" "all" = [].
Proof.
  apply severity_selection_case_sensitive.
  - discriminate.
  - vm_compute. discriminate.
Defined.

(** The same for the type test: for every array of anomalies, a type
    selection other than "all" that is not all lowercase selects
    nothing. *)
Theorem type_selection_case_sensitive (sev ty : string)
    (records : list Anomaly) :
  ty <> "all"%string ->
  toLowerCase ty <> ty ->
  List.filter (matchesFilters sev ty) records = []
  /\ filteredAnomalies sev ty = [].
Proof.
  intros Hall Hcase.
  assert (Hnone : forall a, matchesFilters sev ty a = false).
  { intros a. apply not_true_iff_false. intros Hm.
    apply (matches_type _ _ _ Hall) in Hm.
    now apply includes_lowercase in Hm. }
  assert (Hfilter : forall l, List.filter (matchesFilters sev ty) l = []).
  { induction l as [|a l IH]; [reflexivity|]. cbn. now rewrite Hnone. }
  split; apply Hfilter.
Qed.

Lemma type_selection_case_sensitive_witness :
  List.filter (matchesFilters "all" "Route") anomalies = []
  /\ filteredAnomalies "all" "Route" = [].
Proof.
  apply type_selection_case_sensitive.
  - discriminate.
  - vm_compute. discriminate.
Defined.

(** The empty type selection occurs in every type: it selects what "all"
    selects, for every severity selection and every array. *)
Theorem empty_type_selection_is_all (sev : string) (records : list Anomaly) :
  List.filter (matchesFilters sev "") records
  = List.filter (matchesFilters sev "all") records
  /\ filteredAnomalies sev "" = filteredAnomalies sev "all".
Proof.
  assert (Hsame : forall a,
    matchesFilters sev "" a = matchesFilters sev "all" a).
  { intros a. unfold matchesFilters. cbv zeta.
    rewrite includes_empty. change (String.eqb "all" "all") with true.
    now rewrite orb_true_r, orb_true_l. }
  assert (Hfilter : forall l,
    List.filter (matchesFilters sev "") l
    = List.filter (matchesFilters sev "all") l).
  { induction l as [|a l IH]; [reflexivity|]. cbn. now rewrite Hsame, IH. }
  split; apply Hfilter.
Qed.

(** The two tests compose: filtering by both selections is filtering by
    severity and then by type, or by type and then by severity, for
    every array of anomalies. *)
Theorem filters_compose (sev ty : string) (records : list Anomaly) :
  List.filter (matchesFilters sev ty) records
  = List.filter (matchesFilters "all" ty)
      (List.filter (matchesFilters sev "all") records)
  /\ List.filter (matchesFilters sev ty) records
     = List.filter (matchesFilters sev "all")
         (List.filter (matchesFilters "all" ty) records).
Proof.
  split.
  - rewrite <- filter_andb. apply filter_ext. intros a.
    apply matchesFilters_split.
  - rewrite <- filter_andb. apply filter_ext. intros a.
    rewrite matchesFilters_split. apply andb_comm.
Qed.

(** A type selection that occurs inside another one selects at least
    what the longer one selects: lengthening the selection never adds a
    record. *)
Theorem longer_type_selection_narrows (sev ty ty' : string) (a : Anomaly) :
  ty <> "all"%string ->
  includes ty ty' = true ->
  matchesFilters sev ty a = true ->
  matchesFilters sev ty' a = true.
Proof.
  intros Hall Hsub Hm.
  pose proof (matches_type _ _ _ Hall Hm) as Hty.
  rewrite matchesFilters_split in Hm |- *.
  apply andb_true_iff in Hm as [Hsev _].
  rewrite Hsev, andb_true_l. unfold matchesFilters. cbv zeta.
  change (String.eqb "all" "all") with true. rewrite orb_true_l, andb_true_l.
  apply orb_true_iff. right. now apply (includes_trans _ ty).
Qed.

Lemma longer_type_selection_narrows_witness :
  match anomalies with
  | a :: _ => matchesFilters "high" "out" a = true
  | [] => True
  end.
Proof.
  unfold anomalies.
  apply (longer_type_selection_narrows "high" "route" "out").
  - discriminate.
  - reflexivity.
  - reflexivity.
Defined.

End FilterCallbackFacts.

(** ** Views of the sample anomalies *)

Section AnomalyViews.
Import JsString AnomalyDetection.

(** Tests that single out each record of a list exactly once split every
    filtered view of the list. *)
Lemma filter_partition {A : Type} (tests : list (A -> bool)) (keep : A -> bool)
    (l : list A) :
  List.Forall
    (fun a => List.length (List.filter (fun test => test a) tests) = 1) l ->
  List.concat
    (List.map (fun test => List.filter (fun a => test a && keep a) l) tests)
  ≡ₚ List.filter keep l.
Proof.
  induction l as [|a l IH].
  - intros _. induction tests as [|t tests IHt]; [reflexivity | exact IHt].
  - intros [Hone Hrest]%List.Forall_cons_iff. specialize (IH Hrest).
    assert (Hhead : forall ts,
      List.concat
        (List.map (fun test => List.filter (fun x => test x && keep x) (a :: l)) ts)
      ≡ₚ (if keep a
          then List.map (fun _ => a) (List.filter (fun test => test a) ts)
          else [])
         ++ List.concat
              (List.map (fun test => List.filter (fun x => test x && keep x) l) ts)).
    { induction ts as [|t ts IHts]; [now destruct (keep a)|].
      cbn [List.map List.concat List.filter]. rewrite IHts.
      destruct (t a), (keep a); cbn [andb List.map app].
      - apply perm_skip, Permutation_app_swap_app.
      - reflexivity.
      - apply Permutation_app_swap_app.
      - reflexivity. }
    rewrite Hhead, IH. cbn [List.filter].
    destruct (List.filter (fun test => test a) tests) as [|t [|t' ts]];
      try discriminate.
    now destruct (keep a).
Qed.

(** For every type selection, the three severity selections split what
    "all" shows: each record of a view falls under exactly one of
    "high", "medium" and "low", so the severity selector neither hides
    nor repeats a record of the sample. *)
Theorem severity_selections_partition (ty : string) :
  filteredAnomalies "high" ty ++ filteredAnomalies "medium" ty
    ++ filteredAnomalies "low" ty
  ≡ₚ filteredAnomalies "all" ty.
Proof.
  pose proof (filter_partition
    [ matchesFilters "high" "all"; matchesFilters "medium" "all";
      matchesFilters "low" "all" ]
    (matchesFilters "all" ty) anomalies) as Hpart.
  cbn [List.map List.concat] in Hpart. rewrite app_nil_r in Hpart.
  unfold filteredAnomalies.
  rewrite !(filter_ext _ _ (fun a => matchesFilters_split _ ty a)).
  apply Hpart. unfold anomalies. repeat constructor.
Qed.

(** For every severity selection, the four type choices split what
    "all" shows. *)
Theorem type_choices_partition (sev : string) :
  filteredAnomalies sev "route" ++ filteredAnomalies sev "speed"
    ++ filteredAnomalies sev "time" ++ filteredAnomalies sev "geographic"
  ≡ₚ filteredAnomalies sev "all".
Proof.
  pose proof (filter_partition
    [ matchesFilters "all" "route"; matchesFilters "all" "speed";
      matchesFilters "all" "time"; matchesFilters "all" "geographic" ]
    (matchesFilters sev "all") anomalies) as Hpart.
  cbn [List.map List.concat] in Hpart. rewrite app_nil_r in Hpart.
  unfold filteredAnomalies.
  rewrite !(filter_ext _ _
              (fun a => eq_trans (matchesFilters_split sev _ a)
                                 (andb_comm _ _))).
  apply Hpart. unfold anomalies. repeat constructor.
Qed.

End AnomalyViews.

(** ** The severity switch and its callers *)

Section SeverityColorFacts.
Import JsString AnomalyDetection.

(** The default class is the badge of the unrecognised severities only,
    and the three recognised severities get three different classes: two
    severities with the same class other than the default one are the
    same severity. *)
Theorem getSeverityColor_tells_severities_apart (s1 s2 : string) :
  (getSeverityColor s1 = "bg-secondary text-secondary-foreground"%string
   <-> s1 <> "High"%string /\ s1 <> "Medium"%string /\ s1 <> "Low"%string)
  /\ (getSeverityColor s1 = getSeverityColor s2 ->
      getSeverityColor s1 <> "bg-secondary text-secondary-foreground"%string ->
      s1 = s2).
Proof.
  unfold getSeverityColor.
  destruct (String.eqb_spec s1 "High") as [-> | H1];
    [| destruct (String.eqb_spec s1 "Medium") as [-> | M1];
       [| destruct (String.eqb_spec s1 "Low") as [-> | L1]]];
    (split; [split; [try discriminate; tauto | intros [? [? ?]]; congruence]|]);
    destruct (String.eqb_spec s2 "High") as [-> | H2];
    try (destruct (String.eqb_spec s2 "Medium") as [-> | M2]);
    try (destruct (String.eqb_spec s2 "Low") as [-> | L2]);
    intros Heq Hnd; try reflexivity; try discriminate; congruence.
Qed.

(** The switch is case-sensitive: no lowercased string is recognised, so
    the values of the severity selector ("high", "medium", "low") would
    all get the default class. *)
Theorem getSeverityColor_of_lowercase (s : string) :
  getSeverityColor (toLowerCase s)
  = "bg-secondary text-secondary-foreground"%string.
Proof.
  assert (Hfix : toLowerCase (toLowerCase s) = toLowerCase s)
    by apply toLowerCase_idempotent.
  unfold getSeverityColor.
  destruct (String.eqb_spec (toLowerCase s) "High") as [E | _];
    [rewrite E in Hfix; vm_compute in Hfix; discriminate|].
  destruct (String.eqb_spec (toLowerCase s) "Medium") as [E | _];
    [rewrite E in Hfix; vm_compute in Hfix; discriminate|].
  destruct (String.eqb_spec (toLowerCase s) "Low") as [E | _];
    [rewrite E in Hfix; vm_compute in Hfix; discriminate|].
  reflexivity.
Qed.

(** Whatever the two selections, every anomaly on the list gets the badge
    class of its own severity and never the default one, and passing the
    severity test with a selection other than "all" fixes the class. *)
Theorem listed_badges_never_default (sev ty : string) (a : Anomaly) :
  In a (filteredAnomalies sev ty) ->
  getSeverityColor (severity a)
  <> "bg-secondary text-secondary-foreground"%string
  /\ (sev = "high"%string ->
      getSeverityColor (severity a)
      = "bg-destructive text-destructive-foreground"%string)
  /\ (sev = "medium"%string ->
      getSeverityColor (severity a)
      = "bg-warning text-warning-foreground"%string)
  /\ (sev = "low"%string ->
      getSeverityColor (severity a)
      = "bg-muted text-muted-foreground"%string).
Proof.
  unfold filteredAnomalies. rewrite filter_In. intros [Hin Hm].
  assert (Hsev : sev <> "all"%string -> toLowerCase (severity a) = sev)
    by (intros Hne; now apply (matches_severity sev ty)).
  unfold anomalies in Hin. cbn [In] in Hin.
  destruct Hin as [<- | [<- | [<- | [<- | []]]]];
    cbn [severity] in *;
    (split; [vm_compute; discriminate|]);
    repeat split; intros ->;
    try reflexivity;
    (exfalso; specialize (Hsev ltac:(discriminate));
     vm_compute in Hsev; discriminate).
Qed.

Lemma listed_badges_never_default_witness :
  match anomalies with
  | a :: _ =>
      getSeverityColor (severity a)
      <> "bg-secondary text-secondary-foreground"%string
      /\ ("high"%string = "high"%string ->
          getSeverityColor (severity a)
          = "bg-destructive text-destructive-foreground"%string)
      /\ ("high"%string = "medium"%string ->
          getSeverityColor (severity a)
          = "bg-warning text-warning-foreground"%string)
      /\ ("high"%string = "low"%string ->
          getSeverityColor (severity a)
          = "bg-muted text-muted-foreground"%string)
  | [] => True
  end.
Proof.
  unfold anomalies.
  apply (listed_badges_never_default "high" "route").
  vm_compute. left. reflexivity.
Defined.

End SeverityColorFacts.

(** ** The refresh control *)

Section RefreshFacts.
Import HeatmapVisualization.

Lemma step_consistent (s : State) (e : Event) :
  consistent s -> consistent (step s e).
Proof.
  unfold consistent.
  intros [[Hidle Hnone] | [Hbusy [due Hone]]]; destruct e as [now | now];
    cbn [step]; rewrite ?Hidle, ?Hbusy, ?Hnone, ?Hone.
  - right. cbn. rewrite Hnone. eauto.
  - left. now split.
  - right. eauto.
  - destruct (due <=? now)%Z; [left; now split | right; eauto].
Qed.

Lemma fold_consistent (events : list Event) (s : State) :
  consistent s -> consistent (fold_left step events s).
Proof.
  revert s. induction events as [|e events IH]; intros s Hs; [exact Hs|].
  cbn [fold_left]. now apply IH, step_consistent.
Qed.

Lemma run_consistent (events : list Event) : consistent (run events).
Proof. apply fold_consistent. left. now split. Qed.

(** Whatever is clicked and whenever timeouts run, the flag and the queue
    agree: the view is loading exactly when a timeout is armed, and there
    is never more than one armed, because the button is disabled while
    loading. *)
Theorem refresh_consistent (events : list Event) :
  consistent (run events)
  /\ List.length (pendingTimeouts (run events)) <= 1
  /\ (isLoading (run events) = true <-> pendingTimeouts (run events) <> []).
Proof.
  pose proof (run_consistent events) as Hc.
  split; [exact Hc|].
  destruct Hc as [[Hidle Hnone] | [Hbusy [due Hone]]].
  - rewrite Hidle, Hnone. cbn. split; [lia|]. split; [discriminate | tauto].
  - rewrite Hbusy, Hone. cbn. split; [lia|]. split; [discriminate | reflexivity].
Qed.

(** A refresh started at [now] from an idle view shows the view loading,
    and the loading ends exactly when timeouts run at or after
    [now + 1500]: not before, and then with nothing left armed. *)
Theorem refresh_ends_on_time (events : list Event) (now t : Z) :
  isLoading (run events) = false ->
  let started := step (run events) (ClickRefresh now) in
  isLoading started = true
  /\ isLoading (step started (RunTimeouts t)) = negb (now + 1500 <=? t)%Z
  /\ ((now + 1500 <= t)%Z -> step started (RunTimeouts t) = initial)
  /\ ((t < now + 1500)%Z -> step started (RunTimeouts t) = started).
Proof.
  intros Hidle. cbv zeta.
  destruct (run_consistent events) as [[_ Hnone] | [Hbusy _]];
    [|congruence].
  cbn [step]. rewrite Hidle. unfold handleRefresh. rewrite Hnone.
  cbn [isLoading pendingTimeouts app].
  split; [reflexivity|].
  destruct (Z.leb_spec (now + 1500) t) as [Hle | Hlt]; cbn.
  - repeat split; try reflexivity. lia.
  - repeat split; try reflexivity. lia.
Qed.

Lemma refresh_ends_on_time_witness :
  let events := [ClickRefresh 0; RunTimeouts 1500] in
  let started := step (run events) (ClickRefresh 2000) in
  isLoading started = true
  /\ isLoading (step started (RunTimeouts 3499)) = negb (2000 + 1500 <=? 3499)%Z
  /\ ((2000 + 1500 <= 3499)%Z -> step started (RunTimeouts 3499) = initial)
  /\ ((3499 < 2000 + 1500)%Z -> step started (RunTimeouts 3499) = started).
Proof.
  cbv zeta.
  apply (refresh_ends_on_time [ClickRefresh 0; RunTimeouts 1500] 2000 3499).
  reflexivity.
Defined.

End RefreshFacts.

(** ** The tab bar *)

Section TabFacts.
Import Index.

Lemma step_stays_on_a_panel (activeTab : string) (e : Event) :
  In activeTab panels -> In (step activeTab e) panels.
Proof.
  intros Hin. destruct e as [n | n]; cbn [step].
  - destruct (triggers !! n) as [v|] eqn:E; cbn [default]; [|exact Hin].
    apply list_elem_of_In, list_elem_of_lookup. now exists n.
  - destruct (String.eqb activeTab "overview"); [|exact Hin].
    destruct (quickAccess !! n) as [v|] eqn:E; cbn [default]; [|exact Hin].
    assert (Hq : In v quickAccess).
    { apply list_elem_of_In, list_elem_of_lookup. now exists n. }
    unfold quickAccess in Hq. unfold panels. cbn [In] in *. tauto.
Qed.

(** After any sequence of clicks on triggers and quick-access cards, the
    active tab is the value of one of the four panels, and exactly that
    one panel is on screen: the page never shows no panel, nor two. *)
Theorem one_panel_on_screen (events : list Event) :
  In (run events) panels
  /\ visiblePanels (run events) = [run events].
Proof.
  assert (Hin : In (run events) panels).
  { unfold run.
    assert (Hgen : forall tab, In tab panels ->
                     In (fold_left step events tab) panels).
    { induction events as [|e events IH]; intros tab Htab; [exact Htab|].
      cbn [fold_left]. now apply IH, step_stays_on_a_panel. }
    apply Hgen. left. reflexivity. }
  split; [exact Hin|].
  unfold panels in Hin. cbn [In] in Hin.
  destruct Hin as [<- | [<- | [<- | [<- | []]]]]; reflexivity.
Qed.

(** The quick-access cards lead off the overview and work nowhere else:
    a card click changes the tab only on the overview, and never leads
    back to it. *)
Theorem cards_lead_off_overview (events : list Event) (n : nat) :
  step (run events) (ClickCard n) <> run events ->
  run events = "overview"%string
  /\ step (run events) (ClickCard n) <> "overview"%string
  /\ In (step (run events) (ClickCard n)) quickAccess.
Proof.
  cbn [step]. intros Hmoved.
  destruct (String.eqb_spec (run events) "overview") as [Hov | _];
    [|congruence].
  split; [exact Hov|].
  destruct (quickAccess !! n) as [v|] eqn:E; cbn [default] in *;
    [|congruence].
  assert (Hq : In v quickAccess).
  { apply list_elem_of_In, list_elem_of_lookup. now exists n. }
  split; [|exact Hq].
  unfold quickAccess in Hq. cbn [In] in Hq.
  destruct Hq as [<- | [<- | [<- | []]]]; discriminate.
Qed.

Lemma cards_lead_off_overview_witness :
  run [] = "overview"%string
  /\ step (run []) (ClickCard 1) <> "overview"%string
  /\ In (step (run []) (ClickCard 1)) quickAccess.
Proof.
  apply (cards_lead_off_overview [] 1). vm_compute. discriminate.
Defined.

End TabFacts.
